(** * The rustdoc implementors index of the sentry_contrib_native crates

    The script under verification is a single immediately-invoked function:
    it declares a local object [implementors], assigns one array of record
    literals per crate (lines 1 to 3), and then either calls the host's
    [window.register_implementors] with the object or parks the object in
    [window.pending_implementors] (line 4).

    This file embeds the record literals, the four statements of the
    function body and the part of the host state the script touches, and
    proves the registry's invariants and the properties of the hand-off.

    Conventions of the model:
    - the script runs in a browser: [window] exists, and its two properties
      are plain data properties, so that reading one has no effect;
    - a function of the host is a total map on the global object that
      returns or throws; what it does is a parameter ([behaviour]);
    - objects are compared by structure; a consumer receives the registry
      as a value, and what a consumer later does to the object it was
      handed is outside the script. *)

From Stdlib Require Import ZArith String Ascii.
From stdpp Require Import gmap strings list fin_maps relations.

Local Open Scope string_scope.
Local Open Scope list_scope.

(** ** Record literals *)

(** One element of the arrays on lines 2 and 3: an object literal with the
    three properties text, synthetic and types. *)
Record implementor := Implementor {
  text : string;
  synthetic : bool;
  types : list string
}.

Global Instance implementor_eq_dec : EqDecision implementor.
Proof. solve_decision. Defined.

(** The double quote, written backslash-quote inside the script's string
    literals. *)
Definition dquote : ascii := ascii_of_nat 34.

(** The text literals below are the script's, with every escaped double
    quote of the script written as an apostrophe (the script's data holds no
    apostrophe); [js] puts the double quotes back, so [js "..."] is the
    string value the script's literal denotes. *)
Fixpoint js (s : string) : string :=
  match s with
  | EmptyString => EmptyString
  | String c s' => String (if Ascii.eqb c "'"%char then dquote else c) (js s')
  end.

Definition native_impls : list implementor := [
  {| text := js "impl <a class='trait' href='https://doc.rust-lang.org/nightly/core/marker/trait.Copy.html' title='trait core::marker::Copy'>Copy</a> for <a class='struct' href='sentry_contrib_native/struct.Uuid.html' title='struct sentry_contrib_native::Uuid'>Uuid</a>";
     synthetic := false;
     types := ["sentry_contrib_native::event::Uuid"] |};
  {| text := js "impl <a class='trait' href='https://doc.rust-lang.org/nightly/core/marker/trait.Copy.html' title='trait core::marker::Copy'>Copy</a> for <a class='enum' href='sentry_contrib_native/options/enum.Ownership.html' title='enum sentry_contrib_native::options::Ownership'>Ownership</a>";
     synthetic := false;
     types := ["sentry_contrib_native::options::Ownership"] |};
  {| text := js "impl <a class='trait' href='https://doc.rust-lang.org/nightly/core/marker/trait.Copy.html' title='trait core::marker::Copy'>Copy</a> for <a class='enum' href='sentry_contrib_native/enum.TransportShutdown.html' title='enum sentry_contrib_native::TransportShutdown'>Shutdown</a>";
     synthetic := false;
     types := ["sentry_contrib_native::transport::Shutdown"] |};
  {| text := js "impl <a class='trait' href='https://doc.rust-lang.org/nightly/core/marker/trait.Copy.html' title='trait core::marker::Copy'>Copy</a> for <a class='enum' href='sentry_contrib_native/enum.Level.html' title='enum sentry_contrib_native::Level'>Level</a>";
     synthetic := false;
     types := ["sentry_contrib_native::Level"] |};
  {| text := js "impl <a class='trait' href='https://doc.rust-lang.org/nightly/core/marker/trait.Copy.html' title='trait core::marker::Copy'>Copy</a> for <a class='enum' href='sentry_contrib_native/enum.Consent.html' title='enum sentry_contrib_native::Consent'>Consent</a>";
     synthetic := false;
     types := ["sentry_contrib_native::Consent"] |}
].

Definition native_sys_impls : list implementor := [
  {| text := js "impl <a class='trait' href='https://doc.rust-lang.org/nightly/core/marker/trait.Copy.html' title='trait core::marker::Copy'>Copy</a> for <a class='struct' href='sentry_contrib_native_sys/struct.Options.html' title='struct sentry_contrib_native_sys::Options'>Options</a>";
     synthetic := false;
     types := ["sentry_contrib_native_sys::Options"] |};
  {| text := js "impl <a class='trait' href='https://doc.rust-lang.org/nightly/core/marker/trait.Copy.html' title='trait core::marker::Copy'>Copy</a> for <a class='union' href='sentry_contrib_native_sys/union.Value.html' title='union sentry_contrib_native_sys::Value'>Value</a>";
     synthetic := false;
     types := ["sentry_contrib_native_sys::Value"] |};
  {| text := js "impl <a class='trait' href='https://doc.rust-lang.org/nightly/core/marker/trait.Copy.html' title='trait core::marker::Copy'>Copy</a> for <a class='struct' href='sentry_contrib_native_sys/struct.Uuid.html' title='struct sentry_contrib_native_sys::Uuid'>Uuid</a>";
     synthetic := false;
     types := ["sentry_contrib_native_sys::Uuid"] |};
  {| text := js "impl <a class='trait' href='https://doc.rust-lang.org/nightly/core/marker/trait.Copy.html' title='trait core::marker::Copy'>Copy</a> for <a class='enum' href='sentry_contrib_native_sys/enum.Level.html' title='enum sentry_contrib_native_sys::Level'>Level</a>";
     synthetic := false;
     types := ["sentry_contrib_native_sys::Level"] |};
  {| text := js "impl <a class='trait' href='https://doc.rust-lang.org/nightly/core/marker/trait.Copy.html' title='trait core::marker::Copy'>Copy</a> for <a class='enum' href='sentry_contrib_native_sys/enum.ValueType.html' title='enum sentry_contrib_native_sys::ValueType'>ValueType</a>";
     synthetic := false;
     types := ["sentry_contrib_native_sys::ValueType"] |};
  {| text := js "impl <a class='trait' href='https://doc.rust-lang.org/nightly/core/marker/trait.Copy.html' title='trait core::marker::Copy'>Copy</a> for <a class='enum' href='sentry_contrib_native_sys/enum.UserConsent.html' title='enum sentry_contrib_native_sys::UserConsent'>UserConsent</a>";
     synthetic := false;
     types := ["sentry_contrib_native_sys::UserConsent"] |};
  {| text := js "impl <a class='trait' href='https://doc.rust-lang.org/nightly/core/marker/trait.Copy.html' title='trait core::marker::Copy'>Copy</a> for <a class='struct' href='sentry_contrib_native_sys/struct.Transport.html' title='struct sentry_contrib_native_sys::Transport'>Transport</a>";
     synthetic := false;
     types := ["sentry_contrib_native_sys::Transport"] |};
  {| text := js "impl <a class='trait' href='https://doc.rust-lang.org/nightly/core/marker/trait.Copy.html' title='trait core::marker::Copy'>Copy</a> for <a class='struct' href='sentry_contrib_native_sys/struct.Envelope.html' title='struct sentry_contrib_native_sys::Envelope'>Envelope</a>";
     synthetic := false;
     types := ["sentry_contrib_native_sys::Envelope"] |}
].

(** ** JavaScript values and the host's global object *)

(** Function objects are named by an identifier; what a function does when
    it is called is given by the host (see [behaviour]). *)
Definition fn_id := nat.

(** The values a property of [window] may hold, as far as the script can
    tell them apart: it tests one for truthiness, calls it, and stores an
    object.  Numbers are the integer-valued ones.  [VObj] is an object
    whose own properties are arrays of records, the shape of
    [implementors]; an absent property reads as [VUndefined]. *)
Inductive value :=
  | VUndefined
  | VNull
  | VBool (b : bool)
  | VNum (n : Z)
  | VStr (s : string)
  | VFun (f : fn_id)
  | VObj (o : gmap string (list implementor)).

Global Instance value_eq_dec : EqDecision value.
Proof. solve_decision. Defined.

(** ToBoolean, as applied by the [if] on line 4. *)
Definition truthy (v : value) : bool :=
  match v with
  | VUndefined | VNull => false
  | VBool b => b
  | VNum n => negb (n =? 0)%Z
  | VStr s => negb (String.eqb s EmptyString)
  | VFun _ | VObj _ => true
  end.

Inductive exn :=
  | TypeError
  | Raised (v : value).

Inductive completion :=
  | Normal
  | Abrupt (e : exn).

Global Instance exn_eq_dec : EqDecision exn.
Proof. solve_decision. Defined.
Global Instance completion_eq_dec : EqDecision completion.
Proof. solve_decision. Defined.

(** The global object: the two properties the script reads or writes, and
    the rest of the host's state (for instance a log a consumer writes
    to). *)
Record window (H : Type) := Window {
  register_implementors : value;
  pending_implementors : value;
  host : H
}.
Arguments Window {H} _ _ _.
Arguments register_implementors {H} _.
Arguments pending_implementors {H} _.
Arguments host {H} _.

(** What calling function [f] with one argument does to the global object,
    and whether the call returns or throws.  The value a call returns is
    dropped by the script (the call is an expression statement). *)
Definition behaviour (H : Type) : Type :=
  fn_id -> value -> window H -> window H * completion.

(** What the script itself does to the outside world. *)
Inductive event :=
  | Invoked (f : fn_id) (arg : value)
  | StoredPending (v : value).

Global Instance event_eq_dec : EqDecision event.
Proof. solve_decision. Defined.

(** ** The function body *)

(** The four statements of the function body, lines 1 to 4. *)
Inductive stmt :=
  | VarImplementors
  | SetKey (k : string) (v : list implementor)
  | Publish.

Global Instance stmt_eq_dec : EqDecision stmt.
Proof. solve_decision. Defined.

(** Lines 1 to 3: [var implementors = {}] and the two assignments. *)
Definition build_stmts : list stmt :=
  [ VarImplementors;
    SetKey "sentry_contrib_native" native_impls;
    SetKey "sentry_contrib_native_sys" native_sys_impls ].

(** The whole body: lines 1 to 3, then the [if] of line 4. *)
Definition body : list stmt := build_stmts ++ [Publish].

(** The state of one run: the local variable [implementors] ([None] while
    it is still undefined, as a hoisted [var] is on entry), the global
    object, the events so far and how the run completed so far. *)
Record state (H : Type) := State {
  implementors : option (gmap string (list implementor));
  win : window H;
  trace : list event;
  status : completion
}.
Arguments State {H} _ _ _ _.
Arguments implementors {H} _.
Arguments win {H} _.
Arguments trace {H} _.
Arguments status {H} _.

Inductive lifecycle := Unpublished | Published.

Global Instance lifecycle_eq_dec : EqDecision lifecycle.
Proof. solve_decision. Defined.

Section Script.
Context {Host : Type}.
Variable call : behaviour Host.

Definition initial (w : window Host) : state Host := State None w [] Normal.

Definition local_value (st : state Host) : value :=
  match implementors st with
  | Some m => VObj m
  | None => VUndefined
  end.

Definition set_pending (v : value) (w : window Host) : window Host :=
  Window (register_implementors w) v (host w).

(** One statement, as a function. *)
Definition exec_stmt (s : stmt) (st : state Host) : state Host :=
  match s with
  | VarImplementors =>
      State (Some ∅) (win st) (trace st) (status st)
  | SetKey k v =>
      match implementors st with
      | Some m => State (Some (<[k:=v]> m)) (win st) (trace st) (status st)
      | None => State None (win st) (trace st) (Abrupt TypeError)
      end
  | Publish =>
      let arg := local_value st in
      if truthy (register_implementors (win st)) then
        match register_implementors (win st) with
        | VFun f =>
            let r := call f arg (win st) in
            State (implementors st) r.1 (trace st ++ [Invoked f arg]) r.2
        | _ =>
            State (implementors st) (win st) (trace st) (Abrupt TypeError)
        end
      else
        State (implementors st) (set_pending arg (win st))
              (trace st ++ [StoredPending arg]) Normal
  end.

(** A statement list, left to right; a throw ends the run. *)
Fixpoint exec (l : list stmt) (st : state Host) : state Host :=
  match l with
  | [] => st
  | s :: l' =>
      match status st with
      | Normal => exec l' (exec_stmt s st)
      | Abrupt _ => st
      end
  end.

(** Lines 1 to 3 and the whole script, from a given global object. *)
Definition build (w : window Host) : state Host := exec build_stmts (initial w).
Definition script (w : window Host) : state Host := exec body (initial w).

(** *** The same body as a transition system *)

(** A configuration: the statements still to run, and the state. *)
Definition config : Type := list stmt * state Host.

Inductive step : config -> config -> Prop :=
  | step_var rest st :
      status st = Normal ->
      step (VarImplementors :: rest, st)
           (rest, State (Some ∅) (win st) (trace st) Normal)
  | step_set rest k v m st :
      status st = Normal ->
      implementors st = Some m ->
      step (SetKey k v :: rest, st)
           (rest, State (Some (<[k:=v]> m)) (win st) (trace st) Normal)
  | step_set_undefined rest k v st :
      status st = Normal ->
      implementors st = None ->
      step (SetKey k v :: rest, st)
           (rest, State None (win st) (trace st) (Abrupt TypeError))
  | step_publish_call rest f st w' r :
      status st = Normal ->
      register_implementors (win st) = VFun f ->
      call f (local_value st) (win st) = (w', r) ->
      step (Publish :: rest, st)
           (rest, State (implementors st) w'
                    (trace st ++ [Invoked f (local_value st)]) r)
  | step_publish_not_callable rest st :
      status st = Normal ->
      truthy (register_implementors (win st)) = true ->
      (forall f, register_implementors (win st) <> VFun f) ->
      step (Publish :: rest, st)
           (rest, State (implementors st) (win st) (trace st)
                    (Abrupt TypeError))
  | step_publish_defer rest st :
      status st = Normal ->
      truthy (register_implementors (win st)) = false ->
      step (Publish :: rest, st)
           (rest, State (implementors st)
                    (set_pending (local_value st) (win st))
                    (trace st ++ [StoredPending (local_value st)]) Normal).

(** Whether an event of the run has delivered the object the script built:
    an invocation that passed it to a consumer, or a store after which the
    pending slot holds it. *)
Definition delivers (st : state Host) (e : event) : bool :=
  match implementors st, e with
  | Some m, Invoked _ arg => bool_decide (arg = VObj m)
  | Some m, StoredPending v =>
      bool_decide (v = VObj m /\ pending_implementors (win st) = VObj m)
  | None, _ => false
  end.

(** The lifecycle state of a configuration: [Published] once the object
    has been delivered, to a consumer or to the pending slot;
    [Unpublished] before, and also after a run that delivered nothing. *)
Definition phase (c : config) : lifecycle :=
  if existsb (delivers c.2) (trace c.2) then Published else Unpublished.

Definition start (w : window Host) : config := (body, initial w).

Definition terminal (c : config) : Prop := forall c', ~ step c c'.

End Script.

(** ** The registry and its derived views *)

(** The object lines 1 to 3 leave in [implementors]: an empty object with
    the two properties assigned in order (see [build_state]). *)
Definition registry : gmap string (list implementor) :=
  <["sentry_contrib_native_sys" := native_sys_impls]>
    (<["sentry_contrib_native" := native_impls]> ∅).

(** The record literals have no property for the trait: it is part of
    [text], as the title attribute of the first anchor,
    [title=(quote)trait core::marker::Copy(quote)].  [trait_path] reads it
    off. *)
Fixpoint skip (n : nat) (s : string) : string :=
  match n, s with
  | S n', String _ s' => skip n' s'
  | _, _ => s
  end.

Fixpoint after (pat s : string) : option string :=
  if String.prefix pat s then Some (skip (String.length pat) s)
  else match s with
       | EmptyString => None
       | String _ s' => after pat s'
       end.

Fixpoint upto (c : ascii) (s : string) : option string :=
  match s with
  | EmptyString => None
  | String a s' =>
      if Ascii.eqb a c then Some EmptyString else String a <$> upto c s'
  end.

Definition trait_path (r : implementor) : option string :=
  after (js "title='trait ") (text r) ≫= upto dquote.

(** ** A consumer that logs *)

(** Every record of every property of the object received. *)
Definition records_of (v : value) : list implementor :=
  match v with
  | VObj m => mjoin ((map_to_list m).*2)
  | _ => []
  end.

(** A host whose state is a log of records, and whose functions all append
    the records they receive to the log and return. *)
Definition logging_consumer : behaviour (list implementor) :=
  fun _ arg w =>
    (Window (register_implementors w) (pending_implementors w)
            (host w ++ records_of arg), Normal).

(** A host without state whose functions do nothing and return. *)
Definition idle_consumer : behaviour unit :=
  fun _ _ w => (w, Normal).

(** The uniform shape of the record literals. *)
Definition copy_not_synthetic (r : implementor) : Prop :=
  synthetic r = false /\ trait_path r = Some "core::marker::Copy".

Global Instance copy_not_synthetic_dec r : Decision (copy_not_synthetic r).
Proof. unfold copy_not_synthetic. apply _. Defined.

(** Whether a value can be called. *)
Definition callable (v : value) : bool :=
  match v with
  | VFun _ => true
  | _ => false
  end.

(** The two outcomes of line 4: the consumer [f] was invoked once with the
    registry and nothing was stored, or the registry was stored in the
    pending slot and nothing was invoked. *)
Definition handed_over {Host : Type} (st : state Host) : Prop :=
  exists f, trace st = [Invoked f (VObj registry)].

Definition deferred {Host : Type} (st : state Host) : Prop :=
  trace st = [StoredPending (VObj registry)] /\
  pending_implementors (win st) = VObj registry.

Definition exactly_one_path {Host : Type} (st : state Host) : Prop :=
  (handed_over st /\ ~ deferred st) \/ (~ handed_over st /\ deferred st).

(** A host without state whose functions return when handed an object and
    throw a TypeError when handed anything else. *)
Definition picky_consumer : behaviour unit :=
  fun _ arg w =>
    match arg with
    | VObj _ => (w, Normal)
    | _ => (w, Abrupt TypeError)
    end.

(** The script run [n] times in a row, each run from the global object the
    run before left (the page loading the file [n] times). *)
Definition reload {Host : Type} (call : behaviour Host) (n : nat)
    (w : window Host) : window Host :=
  Nat.iter n (fun w' => win (script call w')) w.

(** Whether a record lists exactly one type path, and that path lies in
    the namespace of module [k]: it starts with [k] and two colons. *)
Definition in_namespace (k : string) (r : implementor) : bool :=
  match types r with
  | [t] => String.prefix (k +:+ "::") t
  | _ => false
  end.

(** * Properties *)

(** ** The registry (lines 1 to 3) *)

Section Build.
Context {Host : Type}.
Variable call : behaviour Host.

Lemma build_state (w : window Host) :
  build call w = State (Some registry) w [] Normal.
Proof. reflexivity. Qed.

Lemma script_publish (w : window Host) :
  script call w = exec_stmt call Publish (State (Some registry) w [] Normal).
Proof. reflexivity. Qed.

End Build.

Lemma registry_lookup (k : string) (recs : list implementor) :
  registry !! k = Some recs ->
  (k = "sentry_contrib_native" /\ recs = native_impls) \/
  (k = "sentry_contrib_native_sys" /\ recs = native_sys_impls).
Proof.
  unfold registry. intros Hk.
  destruct (decide (k = "sentry_contrib_native_sys")) as [->|Hsys].
  - rewrite lookup_insert_eq in Hk. right. by inversion Hk.
  - rewrite lookup_insert_ne in Hk by done.
    destruct (decide (k = "sentry_contrib_native")) as [->|Hnat].
    + rewrite lookup_insert_eq in Hk. left. by inversion Hk.
    + rewrite lookup_insert_ne, lookup_empty in Hk by done. discriminate.
Qed.

Lemma registry_native : registry !! "sentry_contrib_native" = Some native_impls.
Proof.
  unfold registry. rewrite lookup_insert_ne by done. apply lookup_insert_eq.
Qed.

Lemma registry_native_sys :
  registry !! "sentry_contrib_native_sys" = Some native_sys_impls.
Proof. unfold registry. apply lookup_insert_eq. Qed.

Lemma registry_dom :
  dom registry = {[ "sentry_contrib_native"; "sentry_contrib_native_sys" ]}.
Proof.
  unfold registry. rewrite !dom_insert_L, dom_empty_L. set_solver.
Qed.

Lemma native_impls_length : length native_impls = 5.
Proof. reflexivity. Qed.

Lemma native_sys_impls_length : length native_sys_impls = 8.
Proof. reflexivity. Qed.

(** The embedded texts have the lengths of the script's string values. *)
Lemma text_lengths :
  (String.length ∘ text) <$> native_impls = [252; 278; 276; 249; 255] /\
  (String.length ∘ text) <$> native_sys_impls
    = [269; 260; 260; 257; 269; 275; 275; 272].
Proof. split; vm_compute; reflexivity. Qed.

Lemma native_types_NoDup : NoDup (types <$> native_impls).
Proof. refine (bool_decide_unpack _ _). vm_compute. exact I. Qed.

Lemma native_sys_types_NoDup : NoDup (types <$> native_sys_impls).
Proof. refine (bool_decide_unpack _ _). vm_compute. exact I. Qed.

Lemma registry_types_NoDup (k : string) (recs : list implementor) :
  registry !! k = Some recs -> NoDup (types <$> recs).
Proof.
  intros Hk. destruct (registry_lookup k recs Hk) as [[_ ->]|[_ ->]].
  - exact native_types_NoDup.
  - exact native_sys_types_NoDup.
Qed.

(** Records at two different positions of a list without duplicate type
    paths have different type paths. *)
Lemma NoDup_types_distinct (recs : list implementor) (i j : nat)
    (ri rj : implementor) :
  NoDup (types <$> recs) ->
  recs !! i = Some ri -> recs !! j = Some rj -> i <> j ->
  types ri <> types rj.
Proof.
  intros Hnd Hi Hj Hij Heq. apply Hij.
  apply (NoDup_lookup (types <$> recs) i j (types ri)); [done | |].
  - by rewrite list_lookup_fmap, Hi.
  - by rewrite list_lookup_fmap, Hj, Heq.
Qed.

Lemma native_impls_copy : Forall copy_not_synthetic native_impls.
Proof. refine (bool_decide_unpack _ _). vm_compute. exact I. Qed.

Lemma native_sys_impls_copy : Forall copy_not_synthetic native_sys_impls.
Proof. refine (bool_decide_unpack _ _). vm_compute. exact I. Qed.

(** C4. Building is a function of the literal data alone: lines 1 to 3 run
    twice, from any two global objects and under any two hosts, leave
    structurally equal objects in [implementors]. *)
Theorem build_twice_equal {H1 H2 : Type}
    (call1 : behaviour H1) (call2 : behaviour H2)
    (w1 : window H1) (w2 : window H2) :
  implementors (build call1 w1) = implementors (build call2 w2) /\
  implementors (build call1 w1) = Some registry.
Proof. by rewrite !build_state. Qed.

(** C5. Building takes no input, cannot fail and has no effect but the
    object it makes: after each of the three statements the run is still
    normal, the global object is the one it started from and nothing has
    been invoked or stored; at the end [implementors] holds the registry. *)
Theorem build_infallible_effect_free {Host : Type}
    (call : behaviour Host) (w : window Host) :
  (forall n, let st := exec call (take n build_stmts) (initial w) in
             status st = Normal /\ win st = w /\ trace st = []) /\
  build call w = State (Some registry) w [] Normal.
Proof.
  split; [|apply build_state].
  intros [|[|[|[|n]]]]; cbn; done.
Qed.

(** C6. In the registry that lines 1 to 3 build, every module key maps to
    a sequence of records that is not empty. *)
Theorem registry_modules_nonempty {Host : Type}
    (call : behaviour Host) (w : window Host)
    (m : gmap string (list implementor)) (k : string)
    (recs : list implementor) :
  implementors (build call w) = Some m ->
  m !! k = Some recs ->
  recs <> [].
Proof.
  rewrite build_state. cbn. intros [= <-] Hk.
  destruct (registry_lookup k recs Hk) as [[_ ->]|[_ ->]]; discriminate.
Qed.

Lemma registry_modules_nonempty_witness :
  implementors (build idle_consumer (Window VUndefined VUndefined tt))
    = Some registry /\
  registry !! "sentry_contrib_native" = Some native_impls /\
  native_impls <> [].
Proof.
  split; [reflexivity|]. split; [vm_compute; reflexivity|].
  apply (registry_modules_nonempty idle_consumer
           (Window VUndefined VUndefined tt) registry "sentry_contrib_native").
  - reflexivity.
  - vm_compute; reflexivity.
Defined.

(** C7. In the registry that lines 1 to 3 build, two records at different
    positions under one module key that name the same trait have different
    type paths: no type is registered twice for a trait in a module. *)
Theorem no_duplicate_registration {Host : Type}
    (call : behaviour Host) (w : window Host)
    (m : gmap string (list implementor)) (k : string)
    (recs : list implementor) (i j : nat) (ri rj : implementor) :
  implementors (build call w) = Some m ->
  m !! k = Some recs ->
  recs !! i = Some ri ->
  recs !! j = Some rj ->
  i <> j ->
  trait_path ri = trait_path rj ->
  types ri <> types rj.
Proof.
  rewrite build_state. cbn. intros [= <-] Hk Hi Hj Hij _.
  eapply NoDup_types_distinct; eauto using registry_types_NoDup.
Qed.

Lemma no_duplicate_registration_witness :
  exists ri rj,
    native_impls !! 0 = Some ri /\ native_impls !! 1 = Some rj /\
    trait_path ri = trait_path rj /\ types ri <> types rj.
Proof.
  eexists _, _. split; [reflexivity|]. split; [reflexivity|].
  split; [vm_compute; reflexivity|].
  apply (no_duplicate_registration idle_consumer
           (Window VUndefined VUndefined tt) registry
           "sentry_contrib_native" native_impls 0 1).
  - reflexivity.
  - vm_compute; reflexivity.
  - reflexivity.
  - reflexivity.
  - lia.
  - vm_compute; reflexivity.
Defined.

(** C9. Every record of the registry that lines 1 to 3 build has its
    synthetic flag false and names the trait core::marker::Copy. *)
Theorem registry_copy_only {Host : Type}
    (call : behaviour Host) (w : window Host)
    (m : gmap string (list implementor)) (k : string)
    (recs : list implementor) (r : implementor) :
  implementors (build call w) = Some m ->
  m !! k = Some recs ->
  r ∈ recs ->
  synthetic r = false /\ trait_path r = Some "core::marker::Copy".
Proof.
  rewrite build_state. cbn. intros [= <-] Hk Hr.
  assert (Forall copy_not_synthetic recs) as Hall.
  { destruct (registry_lookup k recs Hk) as [[_ ->]|[_ ->]].
    - exact native_impls_copy.
    - exact native_sys_impls_copy. }
  rewrite Forall_forall in Hall. exact (Hall r Hr).
Qed.

Lemma registry_copy_only_witness :
  exists r, native_sys_impls !! 7 = Some r /\
    synthetic r = false /\ trait_path r = Some "core::marker::Copy".
Proof.
  eexists. split; [reflexivity|].
  apply (registry_copy_only idle_consumer
           (Window VUndefined VUndefined tt) registry
           "sentry_contrib_native_sys" native_sys_impls).
  - reflexivity.
  - vm_compute; reflexivity.
  - refine (bool_decide_unpack _ _). vm_compute. exact I.
Defined.

(** ** The hand-off (line 4) *)

Section Publish.
Context {Host : Type}.
Variable call : behaviour Host.

Lemma script_callable (w : window Host) (f : fn_id) :
  register_implementors w = VFun f ->
  script call w =
    State (Some registry) (call f (VObj registry) w).1
          [Invoked f (VObj registry)] (call f (VObj registry) w).2.
Proof. intros Hf. rewrite script_publish. cbn. by rewrite Hf. Qed.

Lemma script_falsy (w : window Host) :
  truthy (register_implementors w) = false ->
  script call w =
    State (Some registry) (set_pending (VObj registry) w)
          [StoredPending (VObj registry)] Normal.
Proof. intros Hf. rewrite script_publish. cbn. by rewrite Hf. Qed.

Lemma script_not_callable (w : window Host) :
  truthy (register_implementors w) = true ->
  callable (register_implementors w) = false ->
  script call w = State (Some registry) w [] (Abrupt TypeError).
Proof.
  intros Ht Hc. rewrite script_publish. cbn. rewrite Ht.
  by destruct (register_implementors w).
Qed.

(** Whatever the global object holds, the script never both invokes and
    stores. *)
Lemma script_at_most_one_event (w : window Host) :
  length (trace (script call w)) <= 1.
Proof.
  destruct (truthy (register_implementors w)) eqn:Ht.
  - destruct (register_implementors w) as [| | | | |f|] eqn:Hr;
      try (rewrite script_not_callable; [cbn; lia|by rewrite Hr|by rewrite Hr]).
    by rewrite (script_callable w f Hr).
  - by rewrite script_falsy.
Qed.

End Publish.

(** C1 as stated, for every global object, does not hold: when
    [register_implementors] holds a truthy value that is not a function
    (here the number 1), the test on line 4 succeeds, the call throws a
    TypeError, and the script neither invokes a consumer nor stores the
    registry. *)
Lemma non_function_handle_breaks_exclusivity :
  let st := script idle_consumer (Window (VNum 1) VUndefined tt) in
  ~ exactly_one_path st /\
  st = State (Some registry) (Window (VNum 1) VUndefined tt) []
             (Abrupt TypeError).
Proof.
  cbn zeta. rewrite script_not_callable by reflexivity.
  split; [|reflexivity].
  intros [[[f Hf] _]|[_ [Hs _]]]; discriminate.
Qed.

(** C1, amended. From every global object whose [register_implementors]
    is a function or is falsy, exactly one of the two paths takes effect:
    a function is invoked exactly once with the built registry, and the
    global object the script leaves is the one the consumer left (the
    script stores nothing); with a falsy value the pending slot holds
    exactly the built registry and nothing is invoked. *)
Theorem publish_exclusive {Host : Type} (call : behaviour Host)
    (w : window Host) :
  callable (register_implementors w) = true \/
  truthy (register_implementors w) = false ->
  let st := script call w in
  exactly_one_path st /\
  (forall f, register_implementors w = VFun f ->
     trace st = [Invoked f (VObj registry)] /\
     win st = (call f (VObj registry) w).1) /\
  (truthy (register_implementors w) = false ->
     trace st = [StoredPending (VObj registry)] /\
     win st = Window (register_implementors w) (VObj registry) (host w)).
Proof.
  intros Hw st. split; [|split].
  - destruct Hw as [Hc|Hf].
    + destruct (register_implementors w) as [| | | | |f|] eqn:Hr;
        try discriminate Hc.
      left. subst st. rewrite (script_callable call w f Hr).
      split; [by exists f|]. intros [Hs _]. discriminate Hs.
    + right. subst st. rewrite (script_falsy call w Hf).
      split; [|by split]. intros [f Hi]. discriminate Hi.
  - intros f Hr. subst st. by rewrite (script_callable call w f Hr).
  - intros Hf. subst st. by rewrite (script_falsy call w Hf).
Qed.

Lemma publish_exclusive_witness :
  let w := Window (VFun 0) VUndefined tt in
  let st := script idle_consumer w in
  exactly_one_path st /\
  (forall f, register_implementors w = VFun f ->
     trace st = [Invoked f (VObj registry)] /\
     win st = (idle_consumer f (VObj registry) w).1) /\
  (truthy (register_implementors w) = false ->
     trace st = [StoredPending (VObj registry)] /\
     win st = Window (register_implementors w) (VObj registry) (host w)).
Proof.
  apply (publish_exclusive idle_consumer (Window (VFun 0) VUndefined tt)).
  left. reflexivity.
Defined.

(** C2. With no consumer registered before the script runs (the property
    absent, or holding any falsy value), the pending slot afterwards holds
    an object with exactly the two keys sentry_contrib_native and
    sentry_contrib_native_sys, mapped to sequences of 5 and of 8
    records. *)
Theorem pending_registry_shape {Host : Type} (call : behaviour Host)
    (w : window Host) :
  truthy (register_implementors w) = false ->
  exists m : gmap string (list implementor),
    pending_implementors (win (script call w)) = VObj m /\
    dom m = {[ "sentry_contrib_native"; "sentry_contrib_native_sys" ]} /\
    length <$> m !! "sentry_contrib_native" = Some 5 /\
    length <$> m !! "sentry_contrib_native_sys" = Some 8.
Proof.
  intros Hf. exists registry. rewrite (script_falsy call w Hf). cbn.
  split; [done|]. split; [exact registry_dom|].
  by rewrite registry_native, registry_native_sys.
Qed.

Lemma pending_registry_shape_witness :
  truthy (register_implementors (Window VUndefined VUndefined tt)) = false /\
  exists m : gmap string (list implementor),
    pending_implementors
      (win (script idle_consumer (Window VUndefined VUndefined tt))) = VObj m /\
    dom m = {[ "sentry_contrib_native"; "sentry_contrib_native_sys" ]} /\
    length <$> m !! "sentry_contrib_native" = Some 5 /\
    length <$> m !! "sentry_contrib_native_sys" = Some 8.
Proof.
  split; [reflexivity|].
  apply (pending_registry_shape idle_consumer (Window VUndefined VUndefined tt)).
  reflexivity.
Defined.

Lemma records_of_registry :
  records_of (VObj registry) ≡ₚ native_impls ++ native_sys_impls.
Proof.
  unfold records_of, registry.
  rewrite map_to_list_insert
    by (by rewrite lookup_insert_ne, lookup_empty).
  rewrite map_to_list_insert by apply lookup_empty.
  rewrite map_to_list_empty. cbn -[native_impls native_sys_impls].
  rewrite app_nil_r.
  apply Permutation_app_comm.
Qed.

(** C3. With a consumer registered that appends every record it receives
    to a log, whatever the pending slot held before: after the script the
    log has gained exactly 13 entries, the 5 and the 8 records, and the
    pending slot still holds what it held. *)
Theorem logging_consumer_frame (f : fn_id) (p : value)
    (log : list implementor) :
  let st := script logging_consumer (Window (VFun f) p log) in
  exists entries : list implementor,
    host (win st) = log ++ entries /\
    entries ≡ₚ native_impls ++ native_sys_impls /\
    length entries = 13 /\
    length (host (win st)) = length log + 13 /\
    pending_implementors (win st) = p /\
    trace st = [Invoked f (VObj registry)] /\
    status st = Normal.
Proof.
  intros st. exists (records_of (VObj registry)). subst st.
  rewrite (script_callable logging_consumer (Window (VFun f) p log) f eq_refl).
  cbn -[records_of registry native_impls native_sys_impls].
  assert (length (records_of (VObj registry)) = 13) as Hlen.
  { rewrite records_of_registry, length_app.
    by rewrite native_impls_length, native_sys_impls_length. }
  split; [reflexivity|]. split; [apply records_of_registry|].
  split; [exact Hlen|]. split; [by rewrite length_app, Hlen|].
  repeat split.
Qed.

(** ** The body as a transition system *)

Section Steps.
Context {Host : Type}.
Variable call : behaviour Host.

(** The relation takes exactly the steps the function computes. *)
Lemma step_sound (l l' : list stmt) (st st' : state Host) :
  step call (l, st) (l', st') ->
  exists s, l = s :: l' /\ status st = Normal /\ st' = exec_stmt call s st.
Proof.
  inversion 1 as [rest st0 Hn|rest k v m st0 Hn Hm|rest k v st0 Hn Hm
                 |rest f st0 w' r Hn Hf Hc|rest st0 Hn Ht Hnf|rest st0 Hn Ht];
    subst; eexists; (split; [reflexivity|]); (split; [done|]); cbn.
  - by rewrite Hn.
  - by rewrite Hm, Hn.
  - by rewrite Hm.
  - by rewrite Hf, Hc.
  - rewrite Ht. destruct (register_implementors (win st)) as [| | | | |f|];
      try done. by destruct (Hnf f).
  - by rewrite Ht.
Qed.

Lemma step_complete (s : stmt) (rest : list stmt) (st : state Host) :
  status st = Normal -> step call (s :: rest, st) (rest, exec_stmt call s st).
Proof.
  intros Hn. destruct s as [|k v|]; cbn.
  - rewrite Hn. by constructor.
  - destruct (implementors st) as [m|] eqn:Hm.
    + rewrite Hn. by constructor.
    + by constructor.
  - destruct (truthy (register_implementors (win st))) eqn:Ht.
    + destruct (register_implementors (win st)) as [| | | | |f|] eqn:Hr;
        try (apply step_publish_not_callable; [done|by rewrite Hr|];
             intros f; rewrite Hr; discriminate).
      apply step_publish_call; [done|done|]. by destruct (call _ _ _).
    + by constructor.
Qed.

Lemma step_deterministic (c c1 c2 : config) :
  step call c c1 -> step call c c2 -> c1 = c2.
Proof.
  destruct c as [l st], c1 as [l1 st1], c2 as [l2 st2].
  intros (s1 & -> & _ & ->)%step_sound (s2 & [= -> ->] & _ & ->)%step_sound.
  reflexivity.
Qed.

Lemma terminal_nil (st : state Host) : terminal call ([], st).
Proof. intros [l' st'] (s & Hl & _)%step_sound. discriminate. Qed.

Lemma terminal_abrupt (l : list stmt) (st : state Host) (e : exn) :
  status st = Abrupt e -> terminal call (l, st).
Proof. intros He [l' st'] (s & _ & Hn & _)%step_sound. congruence. Qed.

Lemma terminal_rtc (c c' : config) :
  terminal call c -> rtc (step call) c c' -> c' = c.
Proof.
  intros Hend Hrun. inversion Hrun as [|? c'' ? Hstep _]; subst; [done|].
  by destruct (Hend c'').
Qed.

(** Every run ends, in the state [exec] computes. *)
Lemma exec_run (l : list stmt) (st : state Host) :
  exists l', rtc (step call) (l, st) (l', exec call l st) /\
             terminal call (l', exec call l st).
Proof.
  revert st. induction l as [|s l IH]; intros st; cbn.
  - exists []. split; [apply rtc_refl|apply terminal_nil].
  - destruct (status st) as [|e] eqn:Hs.
    + destruct (IH (exec_stmt call s st)) as (l' & Hrun & Hend).
      exists l'. split; [|done]. eapply rtc_l; [|done]. by apply step_complete.
    + exists (s :: l). split; [apply rtc_refl|by eapply terminal_abrupt].
Qed.

(** Two complete runs from one configuration end in the same one. *)
Lemma runs_agree (c c1 c2 : config) :
  rtc (step call) c c1 -> terminal call c1 ->
  rtc (step call) c c2 -> terminal call c2 -> c1 = c2.
Proof.
  intros Hrun1. revert c2.
  induction Hrun1 as [c|c c' c1 Hstep Hrun1 IH]; intros c2 Hend1 Hrun2 Hend2.
  - destruct Hrun2 as [|c c'' c2 Hstep _]; [done|]. by destruct (Hend1 c'').
  - destruct Hrun2 as [|c c'' c2 Hstep2 Hrun2]; [by destruct (Hend2 c')|].
    rewrite (step_deterministic c c'' c' Hstep2 Hstep) in Hrun2. by apply IH.
Qed.

(** After [n] steps the configuration is the one [exec] computes on the
    first [n] statements, none of which threw before the last. *)
Lemma nsteps_exec (n : nat) (l : list stmt) (st : state Host) (c : config) :
  nsteps (step call) n (l, st) c ->
  n <= length l /\ c = (drop n l, exec call (take n l) st).
Proof.
  revert l st. induction n as [|n IH]; intros l st Hn.
  - inversion Hn; subst. split; [lia|]. by rewrite drop_0, take_0.
  - inversion Hn as [|? ? [l' st'] ? Hstep Hrest]; subst.
    apply step_sound in Hstep as (s & -> & Hs & ->).
    destruct (IH _ _ Hrest) as [Hle ->]. split; [cbn; lia|].
    cbn. by rewrite Hs.
Qed.

End Steps.

Section Lifecycle.
Context {Host : Type}.
Variable call : behaviour Host.

(** A statement list none of whose statements is reached after a throw
    runs to its end, one step per statement. *)
Lemma exec_nsteps (l : list stmt) (st : state Host) :
  (forall n, n < length l -> status (exec call (take n l) st) = Normal) ->
  nsteps (step call) (length l) (l, st) ([], exec call l st).
Proof.
  revert st. induction l as [|s l IH]; intros st Hok.
  - apply nsteps_O.
  - assert (status st = Normal) as Hs by (apply (Hok 0); cbn; lia).
    cbn [exec length]. rewrite Hs.
    eapply nsteps_l; [by apply step_complete|].
    apply IH. intros n Hn. specialize (Hok (S n)).
    cbn [take exec length] in Hok. rewrite Hs in Hok. apply Hok. lia.
Qed.

Lemma body_length : length body = 4.
Proof. reflexivity. Qed.

Lemma body_prefix_normal (w : window Host) (n : nat) :
  n < 4 -> status (exec call (take n body) (initial w)) = Normal.
Proof. intros Hn. destruct n as [|[|[|[|n]]]]; [reflexivity..|lia]. Qed.

Lemma body_prefix_quiet (w : window Host) (n : nat) :
  n < 4 ->
  win (exec call (take n body) (initial w)) = w /\
  trace (exec call (take n body) (initial w)) = [].
Proof. intros Hn. destruct n as [|[|[|[|n]]]]; [by split..|lia]. Qed.

Lemma phase_before_line4 (w : window Host) (n : nat) (l : list stmt) :
  n < 4 -> phase (l, exec call (take n body) (initial w)) = Unpublished.
Proof.
  intros Hn. unfold phase. cbn [snd].
  by rewrite (proj2 (body_prefix_quiet w n Hn)).
Qed.

Lemma phase_script_delivered (w : window Host) (l : list stmt) :
  callable (register_implementors w) = true \/
  truthy (register_implementors w) = false ->
  phase (l, script call w) = Published.
Proof.
  intros [Hc|Hf]; unfold phase; cbn [snd].
  - destruct (register_implementors w) as [| | | | |f|] eqn:Hr;
      try discriminate Hc.
    rewrite (script_callable call w f Hr).
    cbn [trace existsb delivers implementors].
    by rewrite bool_decide_eq_true_2.
  - rewrite (script_falsy call w Hf).
    cbn [trace existsb delivers implementors win set_pending
         pending_implementors].
    by rewrite bool_decide_eq_true_2.
Qed.

Lemma phase_script_thrown (w : window Host) (l : list stmt) :
  truthy (register_implementors w) = true ->
  callable (register_implementors w) = false ->
  phase (l, script call w) = Unpublished.
Proof. intros Ht Hc. unfold phase. cbn [snd]. by rewrite script_not_callable. Qed.

(** With a handle that is a function or falsy, a reachable configuration
    is Published exactly after the fourth step. *)
Lemma reachable_phase (w : window Host) (n : nat) (c : config) :
  callable (register_implementors w) = true \/
  truthy (register_implementors w) = false ->
  nsteps (step call) n (start w) c ->
  n <= 4 /\ (phase c = Published <-> n = 4).
Proof.
  intros Hw Hn. apply nsteps_exec in Hn as [Hle ->].
  rewrite body_length in Hle. split; [done|].
  destruct (decide (n < 4)) as [Hlt|Hge].
  - rewrite phase_before_line4 by done. split; [discriminate|lia].
  - assert (n = 4) as -> by lia. split; [done|]. intros _.
    by apply (phase_script_delivered w []).
Qed.

Lemma exec_publish_implementors (st : state Host) :
  implementors (exec_stmt call Publish st) = implementors st.
Proof.
  cbn. destruct (truthy _); [|done].
  by destruct (register_implementors (win st)).
Qed.

Lemma script_implementors (w : window Host) :
  implementors (script call w) = Some registry.
Proof. rewrite script_publish. apply exec_publish_implementors. Qed.

Lemma script_nsteps (w : window Host) :
  nsteps (step call) 4 (start w) ([], script call w).
Proof.
  apply (exec_nsteps body (initial w)). rewrite body_length.
  apply body_prefix_normal.
Qed.

End Lifecycle.

Lemma records_of_length : length (records_of (VObj registry)) = 13.
Proof.
  rewrite records_of_registry, length_app.
  by rewrite native_impls_length, native_sys_impls_length.
Qed.

Lemma script_logging (f : fn_id) (p : value) (log : list implementor) :
  script logging_consumer (Window (VFun f) p log) =
    State (Some registry)
          (Window (VFun f) p (log ++ records_of (VObj registry)))
          [Invoked f (VObj registry)] Normal.
Proof.
  exact (script_callable logging_consumer (Window (VFun f) p log) f eq_refl).
Qed.

(** C8 as stated does not hold, on two counts.  With a truthy
    [register_implementors] that is not a function (here the number 1) the
    run ends after its four steps with a TypeError and is still
    Unpublished: nothing was delivered.  And publication is once per run,
    not once per process: a second run from the global object the first
    left invokes the consumer with the registry again. *)
Lemma publish_neither_unconditional_nor_once :
  (let w := Window (VNum 1) VUndefined tt in
   let c : config := ([], script idle_consumer w) in
   nsteps (step idle_consumer) 4 (start w) c /\
   terminal idle_consumer c /\
   phase c = Unpublished /\
   c.2 = State (Some registry) w [] (Abrupt TypeError)) /\
  (let w := Window (VFun 0) VUndefined [] in
   let w' := win (script logging_consumer w) in
   trace (script logging_consumer w) = [Invoked 0 (VObj registry)] /\
   trace (script logging_consumer w') = [Invoked 0 (VObj registry)] /\
   length (host w) = 0 /\ length (host w') = 13 /\
   length (host (win (script logging_consumer w'))) = 26).
Proof.
  split; cbn zeta.
  - split; [apply script_nsteps|]. split; [apply terminal_nil|].
    split; [by apply phase_script_thrown|].
    by rewrite script_not_callable.
  - rewrite !script_logging. cbn [win host trace].
    rewrite !length_app, records_of_length.
    repeat split.
Qed.

(** C8, amended. The life of one run of the script, as a transition
    system, from a global object whose [register_implementors] is a
    function or is falsy.  The run starts Unpublished and reaches, in four
    steps, a Published configuration: the built registry has been passed
    to the consumer, the global object being the one the consumer left, or
    it sits in the pending slot of an otherwise unchanged global object.
    Before the fourth step nothing has left the script.  Exactly one step
    of the run, the fourth, leads from Unpublished to Published.  A
    Published configuration has no further step, so within the run the
    script never writes the registry again. *)
Theorem single_publish_lifecycle {Host : Type} (call : behaviour Host)
    (w : window Host) :
  callable (register_implementors w) = true \/
  truthy (register_implementors w) = false ->
  phase (start w) = Unpublished /\
  nsteps (step call) 4 (start w) ([], script call w) /\
  phase (([], script call w) : config) = Published /\
  ((exists f, register_implementors w = VFun f /\
      script call w =
        State (Some registry) (call f (VObj registry) w).1
              [Invoked f (VObj registry)] (call f (VObj registry) w).2) \/
   (truthy (register_implementors w) = false /\
      script call w =
        State (Some registry)
              (Window (register_implementors w) (VObj registry) (host w))
              [StoredPending (VObj registry)] Normal)) /\
  forall (n : nat) (c : config),
    nsteps (step call) n (start w) c ->
    n <= 4 /\
    (phase c = Published <-> n = 4) /\
    (n < 4 -> win c.2 = w /\ trace c.2 = [] /\ exists c', step call c c') /\
    (forall c', step call c c' ->
       phase c = Unpublished /\ (phase c' = Published <-> n = 3)) /\
    (phase c = Published ->
       c = ([], script call w) /\
       terminal call c /\
       implementors c.2 = Some registry /\
       forall c', rtc (step call) c c' -> c' = c).
Proof.
  intros Hw. split; [reflexivity|]. split; [apply script_nsteps|].
  split; [by apply phase_script_delivered|]. split.
  { destruct Hw as [Hc|Hf].
    - destruct (register_implementors w) as [| | | | |f|] eqn:Hr;
        try discriminate Hc.
      left. exists f. split; [done|]. by apply script_callable.
    - right. split; [done|]. by apply script_falsy. }
  intros n c Hn. destruct (reachable_phase call w n c Hw Hn) as [Hle Hph].
  split; [exact Hle|]. split; [exact Hph|]. split; [|split].
  - intros Hlt. apply nsteps_exec in Hn as [_ ->]. cbn [snd].
    destruct (body_prefix_quiet call w n Hlt) as [Hwin Htr].
    split; [done|]. split; [done|].
    destruct (lookup_lt_is_Some_2 body n) as [s Hs]; [by rewrite body_length|].
    rewrite (drop_S body s n Hs). eexists.
    apply step_complete. by apply body_prefix_normal.
  - intros c' Hstep.
    destruct (reachable_phase call w (S n) c' Hw) as [Hle' Hph'].
    { eapply nsteps_r; eauto. }
    split.
    + destruct (phase c); [done|]. destruct Hph as [Hph _]. specialize (Hph eq_refl). lia.
    + rewrite Hph'. lia.
  - intros Hp. apply Hph in Hp as ->.
    apply nsteps_exec in Hn as [_ ->].
    assert ((drop 4 body, exec call (take 4 body) (initial w))
            = (([], script call w) : config)) as -> by reflexivity.
    split; [done|]. split; [apply terminal_nil|].
    split; [apply script_implementors|].
    intros c' Hrun. eapply terminal_rtc; [apply terminal_nil|done].
Qed.

Lemma single_publish_lifecycle_witness :
  let w := Window (VFun 0) (VNum 7) tt in
  phase (start w) = Unpublished /\
  nsteps (step idle_consumer) 4 (start w) ([], script idle_consumer w) /\
  phase (([], script idle_consumer w) : config) = Published /\
  ((exists f, register_implementors w = VFun f /\
      script idle_consumer w =
        State (Some registry) (idle_consumer f (VObj registry) w).1
              [Invoked f (VObj registry)]
              (idle_consumer f (VObj registry) w).2) \/
   (truthy (register_implementors w) = false /\
      script idle_consumer w =
        State (Some registry)
              (Window (register_implementors w) (VObj registry) (host w))
              [StoredPending (VObj registry)] Normal)) /\
  forall (n : nat) (c : config),
    nsteps (step idle_consumer) n (start w) c ->
    n <= 4 /\
    (phase c = Published <-> n = 4) /\
    (n < 4 -> win c.2 = w /\ trace c.2 = [] /\
              exists c', step idle_consumer c c') /\
    (forall c', step idle_consumer c c' ->
       phase c = Unpublished /\ (phase c' = Published <-> n = 3)) /\
    (phase c = Published ->
       c = ([], script idle_consumer w) /\
       terminal idle_consumer c /\
       implementors c.2 = Some registry /\
       forall c', rtc (step idle_consumer) c c' -> c' = c).
Proof.
  apply (single_publish_lifecycle idle_consumer (Window (VFun 0) (VNum 7) tt)).
  left. reflexivity.
Defined.

(** C10. Two complete runs of the script from one global object, under
    one host, end in the same configuration: the same consumer invocations
    with equal arguments, and equal final pending slots; and that
    configuration is the one [script] computes. *)
Theorem script_deterministic {Host : Type} (call : behaviour Host)
    (w : window Host) (c1 c2 : config) :
  rtc (step call) (start w) c1 -> terminal call c1 ->
  rtc (step call) (start w) c2 -> terminal call c2 ->
  c1 = c2 /\
  trace c1.2 = trace c2.2 /\
  pending_implementors (win c1.2) = pending_implementors (win c2.2) /\
  c1.2 = script call w.
Proof.
  intros Hrun1 Hend1 Hrun2 Hend2.
  assert (c1 = c2) as <- by by eapply runs_agree.
  destruct (exec_run call body (initial w)) as (l' & Hrun & Hend).
  by rewrite (runs_agree call (start w) c1 _ Hrun1 Hend1 Hrun Hend).
Qed.

Lemma script_deterministic_witness :
  let w := Window (VFun 0) (VNum 7) tt in
  let c1 : config := ([], script idle_consumer w) in
  let c2 : config :=
    ([], State (Some registry) w [Invoked 0 (VObj registry)] Normal) in
  c1 = c2 /\
  trace c1.2 = trace c2.2 /\
  pending_implementors (win c1.2) = pending_implementors (win c2.2) /\
  c1.2 = script idle_consumer w.
Proof.
  apply (script_deterministic idle_consumer (Window (VFun 0) (VNum 7) tt)).
  - eapply rtc_l; [apply step_var; reflexivity|].
    eapply rtc_l; [eapply step_set; reflexivity|].
    eapply rtc_l; [eapply step_set; reflexivity|].
    eapply rtc_l; [eapply (step_publish_call _ _ 0); reflexivity|].
    apply rtc_refl.
  - intros c' Hs. inversion Hs.
  - eapply rtc_l; [apply step_var; reflexivity|].
    eapply rtc_l; [eapply step_set; reflexivity|].
    eapply rtc_l; [eapply step_set; reflexivity|].
    eapply rtc_l; [eapply (step_publish_call _ _ 0); reflexivity|].
    apply rtc_refl.
  - intros c' Hs. inversion Hs.
Defined.

(** ** Further properties of the hand-off *)

Section Effects.
Context {Host : Type}.
Variable call : behaviour Host.

(** X1. Whatever the global object holds, the script ends in one of three
    ways and no other.  With a truthy [register_implementors] that is not
    a function it throws a TypeError, and the global object is as it was.
    With a function it invokes that function once with the complete
    registry, and the global object is the one the call left: the script
    itself stores nothing.  With a falsy value it stores the complete
    registry in the pending slot of an otherwise unchanged global object
    and invokes nothing.  It never invokes and stores, and never hands out
    a partly built object. *)
Theorem script_effects (w : window Host) :
  (truthy (register_implementors w) = true /\
   callable (register_implementors w) = false /\
   script call w = State (Some registry) w [] (Abrupt TypeError)) \/
  (exists f, register_implementors w = VFun f /\
     script call w =
       State (Some registry) (call f (VObj registry) w).1
             [Invoked f (VObj registry)] (call f (VObj registry) w).2) \/
  (truthy (register_implementors w) = false /\
   script call w =
     State (Some registry)
           (Window (register_implementors w) (VObj registry) (host w))
           [StoredPending (VObj registry)] Normal).
Proof.
  destruct (truthy (register_implementors w)) eqn:Ht.
  - destruct (register_implementors w) as [| | | | |f|] eqn:Hr;
      try (left; split; [done|]; split; [done|];
           apply script_not_callable; by rewrite Hr).
    right; left. exists f. split; [done|]. by apply script_callable.
  - right; right. split; [done|]. by apply script_falsy.
Qed.

(** X2. A truthy [register_implementors] that is not a function makes the
    call on line 4 throw a TypeError: nothing is invoked, nothing is
    stored, and the global object is left exactly as it was. *)
Theorem non_function_handle_throws (w : window Host) :
  truthy (register_implementors w) = true ->
  callable (register_implementors w) = false ->
  status (script call w) = Abrupt TypeError /\
  win (script call w) = w /\
  trace (script call w) = [].
Proof. intros Ht Hc. by rewrite script_not_callable. Qed.

(** X3. The script completes normally exactly when [register_implementors]
    is falsy, or is a function whose call with the registry returns: an
    exception of the consumer is the script's, and is not caught. *)
Theorem script_normal_iff (w : window Host) :
  status (script call w) = Normal <->
  truthy (register_implementors w) = false \/
  exists f, register_implementors w = VFun f /\
            (call f (VObj registry) w).2 = Normal.
Proof.
  destruct (truthy (register_implementors w)) eqn:Ht.
  - destruct (register_implementors w) as [| | | | |f|] eqn:Hr;
      try (rewrite script_not_callable; [|by rewrite Hr|by rewrite Hr];
           split; [discriminate|]; intros [?|(f & ? & _)]; discriminate).
    rewrite (script_callable call w f Hr). cbn [status]. split.
    + intros Hn. right. by exists f.
    + intros [?|(f' & [= <-] & Hn)]; [discriminate|done].
  - rewrite script_falsy by done. split; [by left|done].
Qed.

(** X4. On the deferred path a second run changes nothing, and what the
    pending slot held before the run does not matter: the slot is
    overwritten, not merged. *)
Theorem deferred_publish_idempotent (w : window Host) :
  truthy (register_implementors w) = false ->
  win (script call (win (script call w))) = win (script call w) /\
  forall p, win (script call (set_pending p w)) = win (script call w).
Proof.
  intros Hf. rewrite (script_falsy call w Hf). cbn [win]. split.
  - by rewrite script_falsy.
  - intros p. by rewrite script_falsy.
Qed.

End Effects.

Lemma non_function_handle_throws_witness :
  let w := Window (VStr "soon") VNull tt in
  status (script idle_consumer w) = Abrupt TypeError /\
  win (script idle_consumer w) = w /\
  trace (script idle_consumer w) = [].
Proof.
  apply (non_function_handle_throws idle_consumer
           (Window (VStr "soon") VNull tt)); reflexivity.
Defined.

Lemma deferred_publish_idempotent_witness :
  let w := Window VNull (VNum 3) tt in
  win (script idle_consumer (win (script idle_consumer w)))
    = win (script idle_consumer w) /\
  forall p, win (script idle_consumer (set_pending p w))
            = win (script idle_consumer w).
Proof.
  apply (deferred_publish_idempotent idle_consumer (Window VNull (VNum 3) tt)).
  reflexivity.
Defined.

(** X5. The script uses the host through one call only: two hosts that
    agree on what the function held by [register_implementors] does with
    the registry on the initial global object give the same run, however
    they differ elsewhere. *)
Theorem script_depends_on_handle_only {Host : Type}
    (call1 call2 : behaviour Host) (w : window Host) :
  (forall f, register_implementors w = VFun f ->
             call1 f (VObj registry) w = call2 f (VObj registry) w) ->
  script call1 w = script call2 w.
Proof.
  intros Hagree. destruct (truthy (register_implementors w)) eqn:Ht.
  - destruct (register_implementors w) as [| | | | |f|] eqn:Hr;
      try (rewrite !script_not_callable; [done|by rewrite Hr..]).
    rewrite (script_callable call1 w f Hr), (script_callable call2 w f Hr).
    by rewrite (Hagree f).
  - by rewrite !script_falsy.
Qed.

Lemma script_depends_on_handle_only_witness :
  script idle_consumer (Window (VFun 0) VUndefined tt)
    = script picky_consumer (Window (VFun 0) VUndefined tt).
Proof.
  apply (script_depends_on_handle_only idle_consumer picky_consumer
           (Window (VFun 0) VUndefined tt)).
  intros f _. reflexivity.
Defined.

(** X6. Nothing in the script guards against a second run: loaded [n]
    times with a logging consumer registered, it hands the registry over
    [n] times, so the log gains 13 entries per load, while the pending slot
    and the registered function stay as they were. *)
Theorem reload_logs_every_time (n : nat) (f : fn_id) (p : value)
    (log : list implementor) :
  let w := reload logging_consumer n (Window (VFun f) p log) in
  register_implementors w = VFun f /\
  pending_implementors w = p /\
  length (host w) = length log + 13 * n.
Proof.
  cbn zeta. induction n as [|n IH].
  - cbn. split; [done|]. split; [done|lia].
  - unfold reload in *. rewrite Nat.iter_succ.
    destruct (Nat.iter n _ _) as [r p' log'].
    cbn [register_implementors pending_implementors host] in IH.
    destruct IH as (-> & -> & Hlen).
    rewrite (script_callable logging_consumer (Window (VFun f) p log') f eq_refl).
    cbn -[records_of registry native_impls native_sys_impls Nat.mul].
    split; [done|]. split; [done|].
    rewrite length_app, Hlen, records_of_registry, length_app.
    rewrite native_impls_length, native_sys_impls_length. lia.
Qed.

(** ** Further invariants of the registry *)

Lemma all_types_NoDup : NoDup (types <$> (native_impls ++ native_sys_impls)).
Proof. refine (bool_decide_unpack _ _). vm_compute. exact I. Qed.

Lemma native_types_apart (r1 r2 : implementor) :
  r1 ∈ native_impls -> r2 ∈ native_sys_impls -> types r1 <> types r2.
Proof.
  intros H1 H2 Heq. pose proof all_types_NoDup as Hnd.
  rewrite fmap_app in Hnd. apply NoDup_app in Hnd as (_ & Hapart & _).
  apply (Hapart (types r1)).
  - by apply list_elem_of_fmap_2.
  - rewrite Heq. by apply list_elem_of_fmap_2.
Qed.

Lemma native_in_namespace :
  forallb (in_namespace "sentry_contrib_native") native_impls = true.
Proof. vm_compute. reflexivity. Qed.

Lemma native_sys_in_namespace :
  forallb (in_namespace "sentry_contrib_native_sys") native_sys_impls = true.
Proof. vm_compute. reflexivity. Qed.

(** X7. In the registry that lines 1 to 3 build, the type path is a key
    for the whole registry: two records with the same type paths sit under
    the same module key at the same position, so no type is listed under
    both crates. *)
Theorem type_paths_identify_records {Host : Type}
    (call : behaviour Host) (w : window Host)
    (m : gmap string (list implementor)) (k1 k2 : string)
    (recs1 recs2 : list implementor) (i j : nat) (r1 r2 : implementor) :
  implementors (build call w) = Some m ->
  m !! k1 = Some recs1 ->
  m !! k2 = Some recs2 ->
  recs1 !! i = Some r1 ->
  recs2 !! j = Some r2 ->
  types r1 = types r2 ->
  k1 = k2 /\ i = j.
Proof.
  rewrite build_state. cbn [implementors]. intros [= <-] Hk1 Hk2 Hi Hj Heq.
  assert (forall recs, recs1 = recs -> recs2 = recs ->
            NoDup (types <$> recs) -> i = j) as Hsame.
  { intros recs -> -> Hnd. destruct (decide (i = j)) as [|Hij]; [done|].
    by destruct (NoDup_types_distinct recs i j r1 r2). }
  destruct (registry_lookup k1 recs1 Hk1) as [[-> E1]|[-> E1]],
           (registry_lookup k2 recs2 Hk2) as [[-> E2]|[-> E2]].
  - split; [done|]. eapply Hsame; eauto using native_types_NoDup.
  - subst. destruct (native_types_apart r1 r2); [..|done];
      by eapply list_elem_of_lookup_2.
  - subst. destruct (native_types_apart r2 r1); [..|done];
      by eapply list_elem_of_lookup_2.
  - split; [done|]. eapply Hsame; eauto using native_sys_types_NoDup.
Qed.

Lemma type_paths_identify_records_witness :
  exists r1 r2,
    native_impls !! 3 = Some r1 /\ native_impls !! 3 = Some r2 /\
    types r1 = types r2 /\
    "sentry_contrib_native" = "sentry_contrib_native" /\ 3 = 3.
Proof.
  eexists _, _. split; [reflexivity|]. split; [reflexivity|].
  split; [reflexivity|].
  eapply (type_paths_identify_records idle_consumer
           (Window VUndefined VUndefined tt) registry
           "sentry_contrib_native" "sentry_contrib_native"
           native_impls native_impls 3 3).
  - reflexivity.
  - vm_compute; reflexivity.
  - vm_compute; reflexivity.
  - reflexivity.
  - reflexivity.
  - reflexivity.
Defined.

(** X8. In the registry that lines 1 to 3 build, every record lists
    exactly one type path, and that path lies in the namespace of the
    module key the record is filed under: it starts with the key followed
    by two colons. *)
Theorem type_path_in_module_namespace {Host : Type}
    (call : behaviour Host) (w : window Host)
    (m : gmap string (list implementor)) (k : string)
    (recs : list implementor) (r : implementor) :
  implementors (build call w) = Some m ->
  m !! k = Some recs ->
  r ∈ recs ->
  exists t, types r = [t] /\ String.prefix (k +:+ "::") t = true.
Proof.
  rewrite build_state. cbn [implementors]. intros [= <-] Hk Hr.
  assert (in_namespace k r = true) as Hns.
  { destruct (registry_lookup k recs Hk) as [[-> ->]|[-> ->]].
    - pose proof native_in_namespace as Hall.
      rewrite forallb_forall in Hall. apply Hall. by apply list_elem_of_In.
    - pose proof native_sys_in_namespace as Hall.
      rewrite forallb_forall in Hall. apply Hall. by apply list_elem_of_In. }
  unfold in_namespace in Hns.
  destruct (types r) as [|t [|t' ts]]; try discriminate. by exists t.
Qed.

Lemma type_path_in_module_namespace_witness :
  exists r, native_sys_impls !! 0 = Some r /\
    exists t, types r = [t] /\
      String.prefix ("sentry_contrib_native_sys" +:+ "::") t = true.
Proof.
  eexists. split; [reflexivity|].
  apply (type_path_in_module_namespace idle_consumer
           (Window VUndefined VUndefined tt) registry
           "sentry_contrib_native_sys" native_sys_impls).
  - reflexivity.
  - vm_compute; reflexivity.
  - refine (bool_decide_unpack _ _). vm_compute. exact I.
Defined.
